(** * Control props for the toggle hook (src/exercise/06.js)

    A shallow embedding of [useToggle] and its helpers, and the properties of
    its state-ownership arbitration.

    Modelling conventions.
    - JavaScript values that reach the hook are [JsVal]: [undefined], [null],
      booleans, references to heap objects and caller-supplied functions.
      Numbers and strings are not needed as property values here.
    - State objects live in a heap and are passed by reference, as in
      JavaScript, so that "same object" and "fresh object" can be told apart
      and a mutation of an existing object would be visible.
    - Action objects are only ever read; they are immutable records.
    - Caller-supplied functions ([onChange], an [onClick] override) are opaque:
      an invocation is recorded in the trace of the world together with its
      arguments, and returns normally.
    - React's hooks ([useRef], [useReducer], [useEffect]) and the [warning]
      package are third-party code; they are modelled after their documented
      behaviour on an explicit per-component hook store ([Fiber]). *)

From stdpp Require Import base option list gmap strings.

Open Scope string_scope.

(** ** Values, objects and the heap *)

Definition loc := nat.

Inductive JsVal :=
| VUndefined
| VNull
| VBool (b : bool)
| VObj (l : loc)
| VFun (name : string).

#[global] Instance JsVal_eq_dec : EqDecision JsVal.
Proof. solve_decision. Defined.

#[global] Instance JsVal_inhabited : Inhabited JsVal := populate VUndefined.

(** An object is its own enumerable properties. *)
Abbreviation Obj := (gmap string JsVal).

(** The heap is append-only here: a reference is the index at which the object
    was allocated. *)
Abbreviation Heap := (list Obj).

(** [v != null] *)
Definition not_nullish (v : JsVal) : bool :=
  match v with
  | VUndefined | VNull => false
  | _ => true
  end.

(** [Boolean(v)], the truthiness used by [!v] and [&&]. *)
Definition truthy (v : JsVal) : bool :=
  match v with
  | VUndefined | VNull => false
  | VBool b => b
  | VObj _ | VFun _ => true
  end.

(** The own properties of a value, as seen by a spread [{...v}]: those of the
    object it refers to, none for [undefined], [null], a boolean or a bare
    function. A reference beyond the heap does not arise in a run; it reads
    as an object without properties. *)
Definition own_props (h : Heap) (v : JsVal) : Obj :=
  match v with
  | VObj l => default ∅ (h !! l)
  | _ => ∅
  end.

(** ** Actions *)

Module actionTypes.
Definition toggle : string := "toggle".
Definition reset : string := "reset".
End actionTypes.

(** [{type, initialState}]; a property that is absent reads as [undefined]. *)
Record Action := mkAction {
  type : string;
  initialState : JsVal;
}.

#[global] Instance Action_eq_dec : EqDecision Action.
Proof. solve_decision. Defined.

(** ** Exceptions and the state-and-exception monad *)

Inductive Exn :=
| TypeError (msg : string)
| Error (msg : string).

#[global] Instance Exn_eq_dec : EqDecision Exn.
Proof. solve_decision. Defined.

(** The outcome of a computation over a store [S]: a value or a thrown
    exception, in both cases with the store as the computation left it. *)
Inductive Res (S A : Type) :=
| Ok (a : A) (s : S)
| Throw (e : Exn) (s : S).
Arguments Ok {S A} a s.
Arguments Throw {S A} e s.

Definition final {S A} (r : Res S A) : S :=
  match r with
  | Ok _ s => s
  | Throw _ s => s
  end.

Definition SE (S A : Type) : Type := S → Res S A.

Definition ret {S A} (a : A) : SE S A := λ s, Ok a s.

Definition bind {S A B} (c : SE S A) (k : A → SE S B) : SE S B :=
  λ s, match c s with
       | Ok a s' => k a s'
       | Throw e s' => Throw e s'
       end.

Definition throw {S A} (e : Exn) : SE S A := λ s, Throw e s.

Notation "x <- c ;; k" := (bind c (λ x, k))
  (at level 100, c at next level, right associativity).
Notation "c ;;; k" := (bind c (λ _, k))
  (at level 100, right associativity).

(** ** Heap operations *)

(** An object literal: allocate the object, return the reference. *)
Definition alloc (o : Obj) : SE Heap JsVal :=
  λ h, Ok (VObj (List.length h)) (h ++ [o])%list.

(** [v.k]: reading a property of [undefined] or [null] throws. *)
Definition get_prop (v : JsVal) (k : string) : SE Heap JsVal :=
  λ h, match v with
       | VUndefined | VNull =>
           Throw (TypeError ("Cannot read properties of nullish value: " ++ k)) h
       | _ => Ok (default VUndefined (own_props h v !! k)) h
       end.

(** ** The reducer *)

(** A reducer, built-in or supplied as a prop: it receives the state and the
    action, and may read the heap, allocate, or throw. *)
Definition Reducer : Type := JsVal → Action → SE Heap JsVal.

(** [function toggleReducer(state, {type, initialState})] *)
Definition toggleReducer : Reducer := λ state action,
  if decide (type action = actionTypes.toggle) then
    v <- get_prop state "on" ;;
    alloc {[ "on" := VBool (negb (truthy v)) ]}
  else if decide (type action = actionTypes.reset) then
    ret (initialState action)
  else
    throw (Error ("Unsupported type: " ++ type action)).

(** ** The world: heap, hook store and trace *)

(** An argument passed to a caller-supplied function. *)
Inductive Arg :=
| ArgVal (v : JsVal)
| ArgAction (a : Action).

Inductive Event :=
| EvCall (f : string) (args : list Arg)   (* a caller-supplied function was invoked *)
| EvWarn (msg : string).                  (* the [warning] package printed a message *)

#[global] Instance Arg_eq_dec : EqDecision Arg.
Proof. solve_decision. Defined.

#[global] Instance Event_eq_dec : EqDecision Event.
Proof. solve_decision. Defined.

(** The hook store of one component instance, one slot per hook call of
    [useToggle] in call order; a slot is [None] until the first render.
    The dependency list [[isControlled, isControlledRef]] of the first effect
    is kept as [isControlled] alone: the ref object is the same on every
    render. *)
Record Fiber := mkFiber {
  refSlot : option JsVal;                             (* useRef({on: initialOn}) *)
  reducerSlot : option (JsVal * list Action);         (* useReducer: state, queued actions *)
  isControlledRefSlot : option bool;                  (* useRef(isControlled) *)
  switchDepsSlot : option bool;                       (* useEffect deps, flip warning *)
  readOnlyDepsSlot : option (bool * bool * JsVal);    (* useEffect deps, read-only warning *)
}.

Definition unmounted : Fiber := mkFiber None None None None None.

Record World := mkWorld {
  heap : Heap;
  fiber : Fiber;
  log : list Event;
}.

Abbreviation M := (SE World).

Definition set_refSlot v (f : Fiber) : Fiber :=
  mkFiber v (reducerSlot f) (isControlledRefSlot f) (switchDepsSlot f) (readOnlyDepsSlot f).
Definition set_reducerSlot v (f : Fiber) : Fiber :=
  mkFiber (refSlot f) v (isControlledRefSlot f) (switchDepsSlot f) (readOnlyDepsSlot f).
Definition set_isControlledRefSlot v (f : Fiber) : Fiber :=
  mkFiber (refSlot f) (reducerSlot f) v (switchDepsSlot f) (readOnlyDepsSlot f).
Definition set_switchDepsSlot v (f : Fiber) : Fiber :=
  mkFiber (refSlot f) (reducerSlot f) (isControlledRefSlot f) v (readOnlyDepsSlot f).
Definition set_readOnlyDepsSlot v (f : Fiber) : Fiber :=
  mkFiber (refSlot f) (reducerSlot f) (isControlledRefSlot f) (switchDepsSlot f) v.

Definition lift_heap {A} (c : SE Heap A) : M A :=
  λ w, match c (heap w) with
       | Ok a h => Ok a (mkWorld h (fiber w) (log w))
       | Throw e h => Throw e (mkWorld h (fiber w) (log w))
       end.

Definition get_fiber : M Fiber := λ w, Ok (fiber w) w.

Definition modify_fiber (g : Fiber → Fiber) : M unit :=
  λ w, Ok tt (mkWorld (heap w) (g (fiber w)) (log w)).

Definition emit (e : Event) : M unit :=
  λ w, Ok tt (mkWorld (heap w) (fiber w) (log w ++ [e])%list).

(** ** React hooks and the [warning] package *)

(** [React.useRef(init)]: the first render stores [init], later renders return
    what was stored. *)
Definition useRef {A} (slot : Fiber → option A) (set_slot : option A → Fiber → Fiber)
    (init : A) : M A :=
  f <- get_fiber ;;
  match slot f with
  | Some v => ret v
  | None => modify_fiber (set_slot (Some init)) ;;; ret init
  end.

(** Reading [ref.current]. *)
Definition current {A} (slot : Fiber → option A) (init : A) : M A :=
  f <- get_fiber ;; ret (default init (slot f)).

Fixpoint reduce_all (r : Reducer) (s : JsVal) (q : list Action) : SE Heap JsVal :=
  match q with
  | [] => ret s
  | a :: q' => s' <- r s a ;; reduce_all r s' q'
  end.

(** [React.useReducer(reducer, initialState)]: the first render starts from
    [initialState]; a later render runs the reducer of that render over the
    actions dispatched since the previous one. *)
Definition useReducer (r : Reducer) (init : JsVal) : M JsVal :=
  f <- get_fiber ;;
  match reducerSlot f with
  | None => modify_fiber (set_reducerSlot (Some (init, []))) ;;; ret init
  | Some (s, q) =>
      s' <- lift_heap (reduce_all r s q) ;;
      modify_fiber (set_reducerSlot (Some (s', []))) ;;;
      ret s'
  end.

(** The [dispatch] function returned by [useReducer]: the action is queued for
    the next render. *)
Definition dispatch (a : Action) : M unit :=
  modify_fiber (λ f, set_reducerSlot
    (match reducerSlot f with
     | Some (s, q) => Some (s, (q ++ [a])%list)
     | None => None
     end) f).

(** [React.useEffect(effect, deps)]: the effect runs after the first render and
    after every render whose dependencies differ from those of the previous
    one. The effects of this file only print warnings and a render prints
    none, so running an effect at its hook call leaves the trace as React
    produces it. *)
Definition useEffect {D} `{EqDecision D} (slot : Fiber → option D)
    (set_slot : option D → Fiber → Fiber) (deps : D) (effect : M unit) : M unit :=
  f <- get_fiber ;;
  if decide (slot f = Some deps) then ret tt
  else modify_fiber (set_slot (Some deps)) ;;; effect.

(** [warning(condition, message)] prints when the condition is false. *)
Definition warning (condition : bool) (message : string) : M unit :=
  if condition then ret tt else emit (EvWarn message).

(** ** The consistency warnings *)

Definition msg_uncontrolledToControlled : string :=
  "Warning: A component is changing from uncontrolled to controlled. Components should not switch from uncontrolled to controlled (or vice versa).".

Definition msg_controlledToUncontrolled : string :=
  "Warning: A component is changing from controlled to uncontrolled. Components should not switch from uncontrolled to controlled (or vice versa).".

Definition msg_readOnly : string :=
  "Warning: Failed prop type: You provided an `on` prop to a toggle without an `onChange` handler. This will render a read-only field. If the field should be mutable use `defaultValue`. Otherwise, set either `onChange` or `readOnly`.".

Definition useControlledSwitchWarning (controlPropValue : JsVal) : M unit :=
  let isControlled := not_nullish controlPropValue in
  useRef isControlledRefSlot set_isControlledRefSlot isControlled ;;;
  useEffect switchDepsSlot set_switchDepsSlot isControlled (
    isControlledRef_current <- current isControlledRefSlot isControlled ;;
    let uncontrolledToControlled := negb isControlledRef_current && isControlled in
    let controlledToUncontrolled := isControlledRef_current && negb isControlled in
    warning (negb uncontrolledToControlled) msg_uncontrolledToControlled ;;;
    warning (negb controlledToUncontrolled) msg_controlledToUncontrolled).

Definition useOnChangeReadOnlyWarning
    (onChangePropValue controlPropValue readOnly : JsVal) : M unit :=
  let hasOnChange := truthy onChangePropValue in
  let isControlled := not_nullish controlPropValue in
  useEffect readOnlyDepsSlot set_readOnlyDepsSlot (hasOnChange, isControlled, readOnly) (
    let isReadOnly := negb hasOnChange && isControlled && negb (truthy readOnly) in
    warning (negb isReadOnly) msg_readOnly).

(** ** [callAll] *)

(** What a call expression [fn?.(...args)] finds in [fn]. *)
Inductive Callee :=
| Nullish                                  (* undefined or null: the call is skipped *)
| NotCallable                              (* any other non-function: TypeError *)
| Callable (f : list Arg → M unit).

(** A value received from the caller, in call position. *)
Definition callee_of (v : JsVal) : Callee :=
  match v with
  | VUndefined | VNull => Nullish
  | VFun name => Callable (λ args, emit (EvCall name args))
  | VBool _ | VObj _ => NotCallable
  end.

(** [fn?.(...args)] *)
Definition optional_call (fn : Callee) (args : list Arg) : M unit :=
  match fn with
  | Nullish => ret tt
  | NotCallable => throw (TypeError "fn is not a function")
  | Callable f => f args
  end.

Fixpoint forEach {A} (f : A → M unit) (l : list A) : M unit :=
  match l with
  | [] => ret tt
  | x :: l' => f x ;;; forEach f l'
  end.

(** [(...fns) => (...args) => fns.forEach(fn => fn?.(...args))] *)
Definition callAll (fns : list Callee) : list Arg → M unit :=
  λ args, forEach (λ fn, optional_call fn args) fns.

(** ** [useToggle] *)

(** The props of [useToggle]; an absent prop is [undefined], an absent
    [reducer] is [None]. *)
Record Props := mkProps {
  initialOn : JsVal;
  reducer : option Reducer;
  onChange : JsVal;
  controlledOn : JsVal;       (* the prop [on] *)
  readOnly : JsVal;
}.

(** A default parameter value [x = d] replaces [undefined] only. *)
Definition default_param (d v : JsVal) : JsVal :=
  match v with
  | VUndefined => d
  | _ => v
  end.

(** The variables of one render that the functions returned by [useToggle]
    close over. *)
Record Render := mkRender {
  r_state : JsVal;
  r_initialState : JsVal;
  r_on : JsVal;
  r_onIsControlled : bool;
  r_onChange : JsVal;
  r_reducer : Reducer;
}.

(** [{...state, on}] *)
Definition spread_with (state : JsVal) (k : string) (v : JsVal) : SE Heap JsVal :=
  λ h, alloc (<[k := v]> (own_props h state)) h.

(** [const dispatchWithOnChange = action => {...}]. In [onChange?.(...)] the
    arguments are evaluated only when [onChange] is not nullish. *)
Definition dispatchWithOnChange (r : Render) (action : Action) : M unit :=
  (if r_onIsControlled r then ret tt else dispatch action) ;;;
  match callee_of (r_onChange r) with
  | Nullish => ret tt
  | fn =>
      base <- lift_heap (spread_with (r_state r) "on" (r_on r)) ;;
      suggested <- lift_heap (r_reducer r base action) ;;
      optional_call fn [ArgVal suggested; ArgAction action]
  end.

Definition toggle (r : Render) : M unit :=
  dispatchWithOnChange r (mkAction actionTypes.toggle VUndefined).

Definition reset (r : Render) : M unit :=
  dispatchWithOnChange r (mkAction actionTypes.reset (r_initialState r)).

(** A property of a bundle returned by a prop getter: a value passed through
    from the caller, or an event handler built by [callAll]. *)
Inductive PropVal :=
| PVal (v : JsVal)
| PHandler (f : list Arg → M unit).

(** [{...props}] on top of the properties written before it. *)
Definition spread_props (props : Obj) (before : gmap string PropVal) : gmap string PropVal :=
  (PVal <$> props) ∪ before.

(** [function getTogglerProps({onClick, ...props} = {})]; [None] is a call
    without argument. *)
Definition getTogglerProps (r : Render) (overrides : option Obj) : gmap string PropVal :=
  let arg := default ∅ overrides in
  let onClick := default VUndefined (arg !! "onClick") in
  let props := delete "onClick" arg in
  spread_props props
    (<["onClick" := PHandler (callAll [callee_of onClick; Callable (λ _, toggle r)])]>
       (<["aria-pressed" := PVal (r_on r)]> ∅)).

(** [function getResetterProps({onClick, ...props} = {})] *)
Definition getResetterProps (r : Render) (overrides : option Obj) : gmap string PropVal :=
  let arg := default ∅ overrides in
  let onClick := default VUndefined (arg !! "onClick") in
  let props := delete "onClick" arg in
  spread_props props
    (<["onClick" := PHandler (callAll [callee_of onClick; Callable (λ _, reset r)])]> ∅).

(** [function useToggle({initialOn = false, reducer = toggleReducer, onChange,
    on: controlledOn, readOnly = false} = {})], one render. [NODE_ENV] is
    [process.env.NODE_ENV]. *)
Definition useToggle (NODE_ENV : string) (p : Props) : M Render :=
  let initialOn' := default_param (VBool false) (initialOn p) in
  let reducer' := default toggleReducer (reducer p) in
  let readOnly' := default_param (VBool false) (readOnly p) in
  o <- lift_heap (alloc {[ "on" := initialOn' ]}) ;;
  initialState' <- useRef refSlot set_refSlot o ;;
  state <- useReducer reducer' initialState' ;;
  let onIsControlled := not_nullish (controlledOn p) in
  on <- (if onIsControlled then ret (controlledOn p)
         else lift_heap (get_prop state "on")) ;;
  (if decide (NODE_ENV = "production") then ret tt
   else
     useControlledSwitchWarning (controlledOn p) ;;;
     useOnChangeReadOnlyWarning (onChange p) (controlledOn p) readOnly') ;;;
  ret (mkRender state initialState' on onIsControlled (onChange p) reducer').

(** A fresh component instance. *)
Definition world0 : World := mkWorld [] unmounted [].

Definition noProps : Props := mkProps VUndefined None VUndefined VUndefined VUndefined.

(** The events a computation added to the trace. *)
Definition emitted {A} (c : M A) (w : World) : list Event :=
  drop (List.length (log w)) (log (final (c w))).

(** ** Vocabulary of the properties *)

(** [state.on] where [state] is not nullish. *)
Definition read_on (h : Heap) (state : JsVal) : JsVal :=
  default VUndefined (own_props h state !! "on").

(** Equality of two results as state values: references are compared by the
    properties of the objects they refer to, anything else by identity. *)
Definition equal_values (h : Heap) (v1 v2 : JsVal) : Prop :=
  match v1, v2 with
  | VObj _, VObj _ => own_props h v1 = own_props h v2
  | _, _ => v1 = v2
  end.

(** The actions built by [toggle] and, for an initial state [i], by [reset]. *)
Definition Toggle : Action := mkAction actionTypes.toggle VUndefined.
Definition Reset (i : JsVal) : Action := mkAction actionTypes.reset i.

(** The purity property read at one input as "a new instance on every
    transition": the call returns a reference to an object that did not exist
    before, and every object that existed is as it was. *)
Definition returns_new_value (s : JsVal) (a : Action) (h : Heap) : Prop :=
  ∃ l' h', toggleReducer s a h = Ok (VObj l') h'
           ∧ h !! l' = None
           ∧ ∀ l o, h !! l = Some o → h' !! l = Some o.

(** A reference is valid in a heap when it refers to an allocated object;
    JavaScript has no other references. *)
Definition valid_ref (h : Heap) (v : JsVal) : Prop :=
  match v with
  | VObj l => l < List.length h
  | _ => True
  end.

(** The props [p] with the prop [on] replaced by [v]. *)
Definition with_on (v : JsVal) (p : Props) : Props :=
  mkProps (initialOn p) (reducer p) (onChange p) v (readOnly p).

(** A reducer that keeps the state it is given, whatever the action. *)
Definition keepReducer : Reducer := λ state _, ret state.

(** [toggle()] of render [r] in world [w] leaves the hook store and every
    existing object as they are, and calls [f] exactly once, with a reference
    to an object that is exactly [{on: false}] and with the toggle action. *)
Definition toggle_suggests_off (r : Render) (f : string) (w : World) : Prop :=
  ∃ l w', toggle r w = Ok tt w'
          ∧ fiber w' = fiber w
          ∧ (∀ l0 o, heap w !! l0 = Some o → heap w' !! l0 = Some o)
          ∧ log w' = (log w ++ [EvCall f [ArgVal (VObj l); ArgAction Toggle]])%list
          ∧ heap w' !! l = Some {[ "on" := VBool false ]}.

(** The property of controlled toggling for the props [p]: in every render
    with [on = true] and an [onChange] function, [toggle()] behaves as above. *)
Definition controlled_toggle_suggests_off (p : Props) : Prop :=
  ∀ NODE_ENV w0 r w f,
    controlledOn p = VBool true → onChange p = VFun f →
    useToggle NODE_ENV p w0 = Ok r w →
    toggle_suggests_off r f w.

(** The state that [onChange] is told about is computed from this object:
    [{...state, on}], the reducer state of the render with its [on] replaced
    by the value the render returned. *)
Definition effective_state_object (r : Render) (h : Heap) : Obj :=
  <["on" := r_on r]> (own_props h (r_state r)).

(** The condition of the read-only warning: controlled, no [onChange], and
    [readOnly] not set. *)
Definition read_only_without_handler (onChangePropValue controlPropValue readOnly : JsVal)
    : Prop :=
  not_nullish controlPropValue = true
  ∧ truthy onChangePropValue = false
  ∧ truthy readOnly = false.

(** The diagnostics of a flip from mode [P] to mode [C] ([true] is
    controlled). *)
Definition flip_diagnostics (P C : bool) : list Event :=
  ((if negb P && C then [EvWarn msg_uncontrolledToControlled] else []) ++
   (if P && negb C then [EvWarn msg_controlledToUncontrolled] else []))%list.

(** The ownership-mode-flip check in the words of the specification: it
    keeps the mode [P] of the previous evaluation, emits the diagnostics of a
    flip from [P] to the current mode [C], and then sets [P := C]. *)
Fixpoint spec_flip_monitor (P : bool) (modes : list bool) : list Event :=
  match modes with
  | [] => []
  | C :: rest => (flip_diagnostics P C ++ spec_flip_monitor C rest)%list
  end.

(** [P] is seeded from the first configuration. *)
Definition spec_flip_trace (modes : list bool) : list Event :=
  match modes with
  | [] => []
  | C0 :: rest => spec_flip_monitor C0 rest
  end.

(** The check of the source over the successive renders of one component,
    given the value of the controlled prop in each. *)
Definition switch_warnings (values : list JsVal) : M unit :=
  forEach useControlledSwitchWarning values.

(** * Properties *)

(** ** Sanity checks *)

Example toggleReducer_ex1 :
  toggleReducer (VObj 0) (mkAction "toggle" VUndefined) [ {[ "on" := VBool false ]} ]
  = Ok (VObj 1) [ {[ "on" := VBool false ]} ; {[ "on" := VBool true ]} ].
Proof. vm_compute. reflexivity. Qed.

(** Uncontrolled, three clicks: [on] is false, true, false, true over the four
    renders, and nothing is printed or called. *)
Example uncontrolled_on_sequence :
  (r1 <- useToggle "test" noProps ;; toggle r1 ;;;
   r2 <- useToggle "test" noProps ;; toggle r2 ;;;
   r3 <- useToggle "test" noProps ;; toggle r3 ;;;
   r4 <- useToggle "test" noProps ;;
   ret [r_on r1; r_on r2; r_on r3; r_on r4]) world0
  = Ok [VBool false; VBool true; VBool false; VBool true]
      (mkWorld
         [ {[ "on" := VBool false ]}; {[ "on" := VBool false ]}; {[ "on" := VBool true ]};
           {[ "on" := VBool false ]}; {[ "on" := VBool false ]}; {[ "on" := VBool false ]};
           {[ "on" := VBool true ]} ]
         (mkFiber (Some (VObj 0)) (Some (VObj 6, [])) (Some false) (Some false)
            (Some (false, false, VBool false)))
         []).
Proof. vm_compute. reflexivity. Qed.

(** Controlled with [on = false] and an [onChange]: one click calls the
    handler once with [{on: true}]; the reducer state stays the initial
    object. *)
Example controlled_click :
  let p := mkProps VUndefined None (VFun "sink") (VBool false) VUndefined in
  let w := final ((r <- useToggle "test" p ;; toggle r) world0) in
  log w = [EvCall "sink" [ArgVal (VObj 2); ArgAction Toggle]]
  ∧ heap w !! 2 = Some {[ "on" := VBool true ]}
  ∧ reducerSlot (fiber w) = Some (VObj 0, []).
Proof. vm_compute. repeat split; reflexivity. Qed.

(** ** The reducer *)

Lemma get_prop_not_nullish (s : JsVal) (k : string) (h : Heap) :
  not_nullish s = true → get_prop s k h = Ok (default VUndefined (own_props h s !! k)) h.
Proof. by destruct s. Qed.

Lemma toggleReducer_toggle (s j : JsVal) (h : Heap) :
  not_nullish s = true →
  toggleReducer s (mkAction actionTypes.toggle j) h
  = Ok (VObj (List.length h)) (h ++ [ {[ "on" := VBool (negb (truthy (read_on h s))) ]} ])%list.
Proof.
  intros Hs. unfold toggleReducer, bind. cbn [type].
  rewrite decide_True by done. by rewrite get_prop_not_nullish.
Qed.

Lemma toggleReducer_reset (s i : JsVal) (h : Heap) :
  toggleReducer s (Reset i) h = Ok i h.
Proof. reflexivity. Qed.

Lemma toggleReducer_unsupported (s : JsVal) (a : Action) (h : Heap) :
  type a ≠ actionTypes.toggle → type a ≠ actionTypes.reset →
  toggleReducer s a h = Throw (Error ("Unsupported type: " ++ type a)) h.
Proof.
  intros H1 H2. unfold toggleReducer.
  rewrite decide_False by done. by rewrite decide_False by done.
Qed.

(** The reducer only ever appends to the heap. *)
Lemma toggleReducer_extends (s : JsVal) (a : Action) (h : Heap) :
  ∃ new, final (toggleReducer s a h) = (h ++ new)%list.
Proof.
  unfold toggleReducer, bind.
  destruct (decide (type a = actionTypes.toggle)).
  - destruct s; cbn; eauto using app_nil_r.
    all: try (by exists []; rewrite app_nil_r).
  - destruct (decide (type a = actionTypes.reset)); cbn;
      by exists []; rewrite app_nil_r.
Qed.

Lemma lift_heap_throw {A} (c : SE Heap A) (e : Exn) (w : World) (h : Heap) :
  c (heap w) = Throw e h → lift_heap c w = Throw e (mkWorld h (fiber w) (log w)).
Proof. intros H. unfold lift_heap. by rewrite H. Qed.

Lemma lift_heap_ok {A} (c : SE Heap A) (a : A) (w : World) (h : Heap) :
  c (heap w) = Ok a h → lift_heap c w = Ok a (mkWorld h (fiber w) (log w)).
Proof. intros H. unfold lift_heap. by rewrite H. Qed.

(** C4. [toggleReducer], for every state object [s = VObj l]: on a toggle
    action it returns a reference to an object that is exactly
    [{on: !s.on}]; on a reset action carrying [i] it returns [i] itself and
    touches nothing; on any other action type it throws
    [Error("Unsupported type: ...")], and [dispatchWithOnChange], which calls
    the reducer when an [onChange] function is present, does not catch it: the
    same error leaves [dispatchWithOnChange] and [onChange] is not invoked. *)
Theorem toggleReducer_cases (s : JsVal) (l : loc) (i j : JsVal) (a : Action) (h : Heap) :
  (∃ l' h',
      toggleReducer (VObj l) (mkAction actionTypes.toggle j) h = Ok (VObj l') h'
      ∧ h' !! l' = Some {[ "on" := VBool (negb (truthy (read_on h (VObj l)))) ]})
  ∧ toggleReducer s (Reset i) h = Ok i h
  ∧ (type a ≠ actionTypes.toggle → type a ≠ actionTypes.reset →
     toggleReducer s a h = Throw (Error ("Unsupported type: " ++ type a)) h
     ∧ ∀ (r : Render) (f : string) (w : World),
         r_reducer r = toggleReducer → r_onChange r = VFun f →
         ∃ w', dispatchWithOnChange r a w
               = Throw (Error ("Unsupported type: " ++ type a)) w'
               ∧ log w' = log w).
Proof.
  split; [|split].
  - eexists _, _. split; [by apply toggleReducer_toggle|].
    rewrite lookup_app_r by done. by rewrite Nat.sub_diag.
  - reflexivity.
  - intros H1 H2. split; [by apply toggleReducer_unsupported|].
    intros r f w Hr Hf. unfold dispatchWithOnChange. rewrite Hr, Hf. cbn [callee_of].
    unfold bind at 1.
    destruct ((if r_onIsControlled r then ret tt else dispatch a) w) as [[] w1|e w1] eqn:E1.
    2:{ destruct (r_onIsControlled r); discriminate. }
    assert (log w1 = log w) as Hlog.
    { destruct (r_onIsControlled r); inversion E1; subst; done. }
    unfold bind. cbn.
    erewrite lift_heap_throw by (by apply toggleReducer_unsupported).
    eexists. split; [reflexivity|]. exact Hlog.
Qed.

Lemma toggleReducer_cases_witness :
  let a := mkAction "increment" VUndefined in
  let h := [ {[ "on" := VBool false ]} ] in
  let r := mkRender (VObj 0) (VObj 0) (VBool false) false (VFun "sink") toggleReducer in
  let w := mkWorld h (set_reducerSlot (Some (VObj 0, [])) unmounted) [] in
  toggleReducer (VObj 0) a h = Throw (Error "Unsupported type: increment") h
  ∧ ∃ w', dispatchWithOnChange r a w = Throw (Error "Unsupported type: increment") w'
          ∧ log w' = [].
Proof.
  intros a h r w.
  destruct (toggleReducer_cases (VObj 0) 0 VUndefined VUndefined a h) as (_ & _ & H).
  destruct H as [H1 H2]; [discriminate | discriminate |].
  split; [exact H1 |]. apply (H2 r "sink" w); reflexivity.
Defined.

(** C8. For every state object [s = VObj l] and every initial state [i],
    toggling and then resetting to [i] returns [i] itself:
    [toggleReducer(toggleReducer(s, toggle), {type: reset, initialState: i})]
    is [i]. *)
Theorem reset_after_toggle (l : loc) (i j : JsVal) (h : Heap) :
  ∃ h', (s' <- toggleReducer (VObj l) (mkAction actionTypes.toggle j) ;;
         toggleReducer s' (Reset i)) h = Ok i h'.
Proof.
  unfold bind. rewrite toggleReducer_toggle by done.
  rewrite toggleReducer_reset. eauto.
Qed.

(** C7, as stated, fails on a reset: resetting to the state object itself
    returns that very object, not a new one. *)
Lemma reset_returns_existing_object :
  ¬ returns_new_value (VObj 0) (Reset (VObj 0)) [ {[ "on" := VBool false ]} ].
Proof.
  intros (l' & h' & Hret & Hnew & _).
  rewrite toggleReducer_reset in Hret. inversion Hret; subst. discriminate.
Qed.

Lemma equal_values_refl (h : Heap) (v : JsVal) : equal_values h v v.
Proof. by destruct v. Qed.

Lemma read_on_extend (h new : Heap) (s : JsVal) :
  valid_ref h s → read_on (h ++ new) s = read_on h s.
Proof.
  unfold read_on, own_props, valid_ref. destruct s; try done.
  intros Hl. by rewrite lookup_app_l.
Qed.

(** C7, amended. For all states [s] and actions [a], [toggleReducer(s, a)]
    leaves every existing object as it was (so it does not mutate [s]), and a
    second call with the same inputs yields an equal output: the same
    exception, or a value equal to the first. On a toggle of a state object
    the value is a reference to a new object; on a reset it is the action's
    [initialState] itself, not a copy. *)
Theorem toggleReducer_pure (s : JsVal) (a : Action) (h : Heap) :
  (∀ l o, h !! l = Some o → final (toggleReducer s a h) !! l = Some o)
  ∧ (valid_ref h s →
     match toggleReducer s a h with
     | Ok v1 h1 => ∃ v2 h2, toggleReducer s a h1 = Ok v2 h2 ∧ equal_values h2 v1 v2
     | Throw e h1 => toggleReducer s a h1 = Throw e h1
     end)
  ∧ (∀ l j, s = VObj l → a = mkAction actionTypes.toggle j →
       ∃ l' h', toggleReducer s a h = Ok (VObj l') h' ∧ h !! l' = None ∧ is_Some (h' !! l'))
  ∧ (∀ i, a = Reset i → toggleReducer s a h = Ok i h).
Proof.
  split; [|split; [|split]].
  - intros l o Hl. destruct (toggleReducer_extends s a h) as [new ->].
    by apply lookup_app_l_Some.
  - intros Hvalid. destruct a as [ty i].
    destruct (decide (ty = actionTypes.toggle)) as [->|Hty].
    + destruct (not_nullish s) eqn:Hs.
      * rewrite toggleReducer_toggle by done.
        eexists _, _. split; [by apply toggleReducer_toggle|].
        rewrite read_on_extend by done.
        unfold equal_values, own_props.
        rewrite (lookup_app_l _ _ (List.length h)) by (rewrite length_app; cbn; lia).
        rewrite (lookup_app_r h) by done.
        rewrite (lookup_app_r (h ++ _)) by done.
        by rewrite !Nat.sub_diag.
      * destruct s; try discriminate; reflexivity.
    + destruct (decide (ty = actionTypes.reset)) as [->|Hty'].
      * rewrite toggleReducer_reset. eexists _, _.
        split; [apply toggleReducer_reset | apply equal_values_refl].
      * by rewrite !toggleReducer_unsupported.
  - intros l j -> ->. eexists _, _. split; [by apply toggleReducer_toggle|].
    split; [by apply lookup_ge_None_2|].
    rewrite lookup_app_r by done. rewrite Nat.sub_diag. by eexists.
  - by intros i ->.
Qed.

Lemma toggleReducer_pure_witness :
  let h := [ {[ "on" := VBool false ]} ] in
  h !! 0 = Some {[ "on" := VBool false ]}
  ∧ final (toggleReducer (VObj 0) Toggle h) !! 0 = Some {[ "on" := VBool false ]}
  ∧ (∃ v2 h2, toggleReducer (VObj 0) Toggle (h ++ [ {[ "on" := VBool true ]} ])%list = Ok v2 h2
              ∧ equal_values h2 (VObj 1) v2)
  ∧ (∃ l' h', toggleReducer (VObj 0) Toggle h = Ok (VObj l') h'
              ∧ h !! l' = None ∧ is_Some (h' !! l'))
  ∧ toggleReducer (VObj 0) (Reset (VObj 0)) h = Ok (VObj 0) h.
Proof.
  intros h.
  destruct (toggleReducer_pure (VObj 0) Toggle h) as (H1 & H2 & H3 & _).
  destruct (toggleReducer_pure (VObj 0) (Reset (VObj 0)) h) as (_ & _ & _ & H4).
  split; [reflexivity|].
  split; [apply H1; reflexivity|].
  split; [apply H2; cbn; lia|].
  split; [apply (H3 0 VUndefined); reflexivity|].
  apply H4; reflexivity.
Defined.

(** ** One render of [useToggle] *)

Lemma bind_Ok {S A B} (c : SE S A) (k : A → SE S B) (s s' : S) (b : B) :
  bind c k s = Ok b s' → ∃ a s1, c s = Ok a s1 ∧ k a s1 = Ok b s'.
Proof. unfold bind. destruct (c s); [eauto | discriminate]. Qed.

Ltac inv_bind H :=
  let a := fresh "x" in
  let w := fresh "w" in
  let E := fresh "E" in
  apply bind_Ok in H as (a & w & E & H).

(** The two warning hooks always return; they write their own slots and the
    trace, nothing else. *)
Lemma useControlledSwitchWarning_frame (v : JsVal) (w : World) :
  ∃ w', useControlledSwitchWarning v w = Ok tt w'
        ∧ heap w' = heap w
        ∧ refSlot (fiber w') = refSlot (fiber w)
        ∧ reducerSlot (fiber w') = reducerSlot (fiber w)
        ∧ readOnlyDepsSlot (fiber w') = readOnlyDepsSlot (fiber w).
Proof.
  destruct w as [h [s1 s2 s3 s4 s5] lg].
  unfold useControlledSwitchWarning, useRef, useEffect, current, warning, bind,
    get_fiber, modify_fiber, ret, emit. cbn.
  destruct s3 as [b3|]; cbn;
    (destruct (decide (s4 = Some (not_nullish v))); cbn; [by eauto 10|]);
    try destruct b3; destruct (not_nullish v); cbn; by eauto 10.
Qed.

Lemma useOnChangeReadOnlyWarning_frame (oc v ro : JsVal) (w : World) :
  ∃ w', useOnChangeReadOnlyWarning oc v ro w = Ok tt w'
        ∧ heap w' = heap w
        ∧ refSlot (fiber w') = refSlot (fiber w)
        ∧ reducerSlot (fiber w') = reducerSlot (fiber w)
        ∧ isControlledRefSlot (fiber w') = isControlledRefSlot (fiber w)
        ∧ switchDepsSlot (fiber w') = switchDepsSlot (fiber w).
Proof.
  destruct w as [h [s1 s2 s3 s4 s5] lg].
  unfold useOnChangeReadOnlyWarning, useEffect, warning, bind,
    get_fiber, modify_fiber, ret, emit. cbn.
  destruct (decide (s5 = Some (truthy oc, not_nullish v, ro))); cbn; [by eauto 10|].
  destruct (negb (negb (truthy oc) && not_nullish v && negb (truthy ro))); cbn; by eauto 10.
Qed.

(** What a render that returns has computed. *)
Lemma useToggle_render (NODE_ENV : string) (p : Props) (w0 w : World) (r : Render) :
  useToggle NODE_ENV p w0 = Ok r w →
  r_onIsControlled r = not_nullish (controlledOn p)
  ∧ r_onChange r = onChange p
  ∧ r_reducer r = default toggleReducer (reducer p)
  ∧ reducerSlot (fiber w) = Some (r_state r, [])
  ∧ refSlot (fiber w) = Some (r_initialState r)
  ∧ r_on r = (if not_nullish (controlledOn p) then controlledOn p
              else read_on (heap w) (r_state r))
  ∧ (not_nullish (controlledOn p) = false → not_nullish (r_state r) = true).
Proof.
  unfold useToggle. intros H.
  inv_bind H. inv_bind H. inv_bind H. inv_bind H. inv_bind H.
  inversion H; subst; clear H. cbn.
  (* the warnings *)
  assert (heap w = heap w4 ∧ refSlot (fiber w) = refSlot (fiber w4)
          ∧ reducerSlot (fiber w) = reducerSlot (fiber w4)) as (Hh & Hr & Hs).
  { destruct (decide (NODE_ENV = "production")).
    - by inversion E3.
    - inv_bind E3.
      destruct (useControlledSwitchWarning_frame (controlledOn p) w4)
        as (w' & E' & ? & ? & ? & ?).
      destruct (useOnChangeReadOnlyWarning_frame (onChange p) (controlledOn p)
                  (default_param (VBool false) (readOnly p)) w5)
        as (w'' & E'' & ? & ? & ? & ? & ?).
      rewrite E' in E4. inversion E4; subst.
      rewrite E'' in E3. inversion E3; subst.
      repeat split; congruence. }
  rewrite Hh, Hr, Hs. clear E3 Hh Hr Hs.
  (* the reducer slot after [useReducer] *)
  assert (reducerSlot (fiber w3) = Some (x1, []) ∧ refSlot (fiber w3) = refSlot (fiber w2))
    as [Hs Hr].
  { unfold useReducer, bind, get_fiber, modify_fiber, ret in E1.
    destruct w2 as [h2 [s1 s2 s3 s4 s5] lg2]. cbn in E1.
    destruct s2 as [[s q]|]; cbn in E1.
    - unfold lift_heap in E1. cbn in E1.
      destruct (reduce_all _ s q h2); inversion E1; subst; done.
    - inversion E1; subst; done. }
  assert (refSlot (fiber w2) = Some x0) as Hr2.
  { unfold useRef, bind, get_fiber, modify_fiber, ret in E0.
    destruct w1 as [h1 [s1 s2 s3 s4 s5] lg1]. cbn in E0.
    destruct s1; inversion E0; subst; done. }
  (* the value of [on] *)
  assert (w4 = w3 ∧ x2 = (if not_nullish (controlledOn p) then controlledOn p
                          else read_on (heap w3) x1)
          ∧ (not_nullish (controlledOn p) = false → not_nullish x1 = true))
    as (-> & -> & Hnn).
  { destruct (not_nullish (controlledOn p)).
    - inversion E2; subst. done.
    - unfold lift_heap in E2. destruct w3 as [h3 f3 lg3]. cbn in E2.
      destruct x1; cbn in E2; inversion E2; subst; done. }
  repeat split; try done. congruence.
Qed.

(** The first render of a component always returns. *)
Lemma useToggle_mount (NODE_ENV : string) (p : Props) (w0 : World) :
  fiber w0 = unmounted → ∃ r w, useToggle NODE_ENV p w0 = Ok r w.
Proof.
  destruct w0 as [h0 f0 lg0]. cbn. intros ->.
  unfold useToggle.
  unfold bind at 1. cbn.
  unfold bind at 1. cbn.
  unfold bind at 1. cbn.
  unfold bind at 1.
  set (w3 := mkWorld _ _ _).
  assert (∃ on, (if not_nullish (controlledOn p) then ret (controlledOn p)
                 else lift_heap (get_prop (VObj (List.length h0)) "on")) w3 = Ok on w3)
    as [on ->].
  { destruct (not_nullish (controlledOn p)); eexists; reflexivity. }
  destruct (decide (NODE_ENV = "production")); [by eauto|].
  destruct (useControlledSwitchWarning_frame (controlledOn p) w3) as (w4 & -> & _).
  destruct (useOnChangeReadOnlyWarning_frame (onChange p) (controlledOn p)
              (default_param (VBool false) (readOnly p)) w4) as (w5 & -> & _).
  by eauto.
Qed.

(** The first render allocates the state object and nothing else. *)
Lemma useToggle_mount_state (NODE_ENV : string) (p : Props) (w0 : World) :
  fiber w0 = unmounted →
  ∃ r w, useToggle NODE_ENV p w0 = Ok r w
         ∧ r_state r = VObj (List.length (heap w0))
         ∧ heap w
           = (heap w0 ++ [ {[ "on" := default_param (VBool false) (initialOn p) ]} ])%list.
Proof.
  destruct w0 as [h0 f0 lg0]. cbn. intros ->.
  unfold useToggle.
  unfold bind at 1. cbn.
  unfold bind at 1. cbn.
  unfold bind at 1. cbn.
  unfold bind at 1.
  set (w3 := mkWorld _ _ _).
  assert (∃ on, (if not_nullish (controlledOn p) then ret (controlledOn p)
                 else lift_heap (get_prop (VObj (List.length h0)) "on")) w3 = Ok on w3)
    as [on ->].
  { destruct (not_nullish (controlledOn p)); eexists; reflexivity. }
  destruct (decide (NODE_ENV = "production")); [by eauto|].
  destruct (useControlledSwitchWarning_frame (controlledOn p) w3) as (w4 & -> & Hh4 & _).
  destruct (useOnChangeReadOnlyWarning_frame (onChange p) (controlledOn p)
              (default_param (VBool false) (readOnly p)) w4) as (w5 & -> & Hh5 & _).
  eexists _, _. split; [reflexivity|]. split; [reflexivity|]. cbn. by rewrite Hh5, Hh4.
Qed.

(** C5. The value [on] that a render of [useToggle] returns is the controlled
    prop when that prop is present (not nullish), and otherwise [state.on] of
    the state held by the reducer hook; which of the two it is depends on the
    presence of the prop alone, and the value is never a mixture. The first
    render of a component always returns. *)
Theorem effective_state (NODE_ENV : string) (p : Props) (w0 : World) :
  (∀ r w, useToggle NODE_ENV p w0 = Ok r w →
     reducerSlot (fiber w) = Some (r_state r, [])
     ∧ (not_nullish (controlledOn p) = true → r_on r = controlledOn p)
     ∧ (not_nullish (controlledOn p) = false → r_on r = read_on (heap w) (r_state r)))
  ∧ (fiber w0 = unmounted → ∃ r w, useToggle NODE_ENV p w0 = Ok r w).
Proof.
  split; [|apply useToggle_mount].
  intros r w H. apply useToggle_render in H as (_ & _ & _ & Hs & _ & Hon & _).
  split; [done|]. split; intros Hc; by rewrite Hc in Hon.
Qed.

Lemma effective_state_witness :
  ∃ r w, useToggle "test" (with_on (VBool true) noProps) world0 = Ok r w
         ∧ r_on r = VBool true
         ∧ ∃ r' w', useToggle "test" noProps world0 = Ok r' w'
                    ∧ r_on r' = read_on (heap w') (r_state r').
Proof.
  destruct (effective_state "test" (with_on (VBool true) noProps) world0) as [H1 H2].
  destruct (effective_state "test" noProps world0) as [H1' H2'].
  destruct H2 as (r & w & E); [reflexivity|].
  destruct H2' as (r' & w' & E'); [reflexivity|].
  exists r, w. split; [exact E|].
  destruct (H1 r w E) as (_ & Hc & _).
  split; [apply Hc; reflexivity|].
  exists r', w'. split; [exact E'|].
  destruct (H1' r' w' E') as (_ & _ & Hu). apply Hu; reflexivity.
Defined.

(** ** Dispatching *)

(** Under external ownership a dispatch leaves the hook store as it is,
    whatever the reducer and the action, and whether or not it throws. *)
Lemma dispatchWithOnChange_controlled_fiber (r : Render) (a : Action) (w : World) :
  r_onIsControlled r = true →
  fiber (final (dispatchWithOnChange r a w)) = fiber w.
Proof.
  intros Hc. unfold dispatchWithOnChange. rewrite Hc.
  unfold bind at 1. cbn.
  destruct (r_onChange r); cbn; try done;
    unfold bind, lift_heap, spread_with, alloc; cbn;
    by destruct (r_reducer r _ a _).
Qed.

(** What a dispatch does to the heap: nothing when [onChange] is nullish;
    otherwise it allocates the copy [{...state, on}] and leaves the heap as
    the reducer, run on that copy, leaves it. *)
Lemma dispatchWithOnChange_heap (r : Render) (a : Action) (w : World) :
  heap (final (dispatchWithOnChange r a w))
  = if not_nullish (r_onChange r)
    then final (r_reducer r (VObj (List.length (heap w))) a
                  (heap w ++ [effective_state_object r (heap w)])%list)
    else heap w.
Proof.
  unfold dispatchWithOnChange, effective_state_object.
  unfold bind at 1.
  destruct ((if r_onIsControlled r then ret tt else dispatch a) w) as [[] w1|e w1] eqn:E1.
  2:{ destruct (r_onIsControlled r); discriminate. }
  assert (heap w1 = heap w) as Hh.
  { destruct (r_onIsControlled r); inversion E1; subst; done. }
  destruct (r_onChange r); cbn [callee_of not_nullish]; try done;
    unfold bind, lift_heap, spread_with, alloc; cbn; rewrite Hh;
    by destruct (r_reducer r _ a _).
Qed.

(** C10. Ownership is decided by [controlledOn != null]. With [on = false]
    the component is controlled: the render returns [on = false], and a
    dispatch of any action does not advance the store. The hook store, and
    with it the reducer state and its queue, is as it was; the heap is as it
    was when there is no [onChange], and otherwise it is the heap with the
    copy [{...state, on}] added, as the reducer run on that copy leaves it.
    So with the built-in reducer, and with any reducer that changes no
    existing object, every existing object, the state object among them,
    keeps its properties. With [on = null] a render is, result and world, the
    render with [on] omitted, and ownership is internal. *)
Theorem ownership_is_non_nullish (NODE_ENV : string) (p : Props) (w0 : World) :
  (∀ r w, controlledOn p = VBool false → useToggle NODE_ENV p w0 = Ok r w →
     r_onIsControlled r = true
     ∧ r_on r = VBool false
     ∧ ∀ a w1,
         fiber (final (dispatchWithOnChange r a w1)) = fiber w1
         ∧ heap (final (dispatchWithOnChange r a w1))
           = (if not_nullish (onChange p)
              then final (default toggleReducer (reducer p)
                            (VObj (List.length (heap w1))) a
                            (heap w1 ++ [effective_state_object r (heap w1)])%list)
              else heap w1)
         ∧ ((∀ s a' h l o, h !! l = Some o →
               final (default toggleReducer (reducer p) s a' h) !! l = Some o) →
            ∀ l o, heap w1 !! l = Some o →
                   heap (final (dispatchWithOnChange r a w1)) !! l = Some o)
         ∧ (reducer p = None →
            ∀ l o, heap w1 !! l = Some o →
                   heap (final (dispatchWithOnChange r a w1)) !! l = Some o))
  ∧ useToggle NODE_ENV (with_on VNull p) w0 = useToggle NODE_ENV (with_on VUndefined p) w0
  ∧ (∀ r w, useToggle NODE_ENV (with_on VNull p) w0 = Ok r w → r_onIsControlled r = false).
Proof.
  split; [|split].
  - intros r w Hp H.
    apply useToggle_render in H as (Hc & Hoc & Hr & _ & _ & Hon & _).
    rewrite Hp in Hc, Hon. cbn in Hc, Hon.
    split; [done|]. split; [done|].
    intros a w1.
    pose proof (dispatchWithOnChange_heap r a w1) as Hheap. rewrite Hoc, Hr in Hheap.
    assert ((∀ s a' h l o, h !! l = Some o →
               final (default toggleReducer (reducer p) s a' h) !! l = Some o) →
            ∀ l o, heap w1 !! l = Some o →
                   heap (final (dispatchWithOnChange r a w1)) !! l = Some o) as Hframe.
    { intros Hpure l o Hl. rewrite Hheap.
      destruct (not_nullish (onChange p)); [|done].
      apply Hpure. by apply lookup_app_l_Some. }
    split; [by apply dispatchWithOnChange_controlled_fiber|].
    split; [done|]. split; [done|].
    intros Hred. apply Hframe. rewrite Hred. cbn [default].
    intros s a' h l o Hl. destruct (toggleReducer_extends s a' h) as [new ->].
    by apply lookup_app_l_Some.
  - reflexivity.
  - intros r w H. by apply useToggle_render in H as (Hc & _).
Qed.

Lemma ownership_is_non_nullish_witness :
  let p := mkProps VUndefined None (VFun "sink") (VBool false) VUndefined in
  ∃ r w, useToggle "test" p world0 = Ok r w
         ∧ r_onIsControlled r = true
         ∧ r_on r = VBool false
         ∧ fiber (final (toggle r w)) = fiber w
         ∧ (∀ l o, heap w !! l = Some o → heap (final (toggle r w)) !! l = Some o)
         ∧ (∀ l o, heap w !! l = Some o → heap (final (reset r w)) !! l = Some o)
         ∧ ∃ r' w', useToggle "test" (with_on VNull noProps) world0 = Ok r' w'
                    ∧ r_onIsControlled r' = false.
Proof.
  intros p.
  destruct (ownership_is_non_nullish "test" p world0) as (H1 & _ & _).
  destruct (ownership_is_non_nullish "test" noProps world0) as (_ & _ & H3).
  destruct (useToggle_mount "test" p world0 eq_refl) as (r & w & E).
  destruct (useToggle_mount "test" (with_on VNull noProps) world0 eq_refl) as (r' & w' & E').
  exists r, w. split; [exact E|].
  destruct (H1 r w eq_refl E) as (Hc & Hon & Hd).
  split; [exact Hc|]. split; [exact Hon|].
  destruct (Hd (mkAction actionTypes.toggle VUndefined) w) as (Hf & _ & _ & Hbuiltin).
  destruct (Hd (mkAction actionTypes.reset (r_initialState r)) w) as (_ & _ & Hpure & _).
  split; [exact Hf|].
  split; [exact (Hbuiltin eq_refl)|].
  split.
  - apply Hpure. intros s a' h l o Hl.
    destruct (toggleReducer_extends s a' h) as [new Hnew].
    cbn [default reducer p]. rewrite Hnew. by apply lookup_app_l_Some.
  - exists r', w'. split; [exact E'|]. apply (H3 r' w' E').
Defined.

(** C1, as stated, fails for a configuration with a reducer of its own: with
    [on = true], an [onChange] function and a reducer that keeps the state,
    [toggle()] suggests [{on: true}]. *)
Lemma custom_reducer_suggestion :
  ¬ controlled_toggle_suggests_off
      (mkProps VUndefined (Some keepReducer) (VFun "sink") (VBool true) VUndefined).
Proof.
  intros H.
  destruct (H "test" world0 _ _ "sink" eq_refl eq_refl eq_refl)
    as (l & w' & Ht & _ & _ & Hlog & Hobj).
  vm_compute in Ht. inversion Ht; subst; clear Ht.
  vm_compute in Hlog. inversion Hlog; subst; clear Hlog.
  vm_compute in Hobj. discriminate.
Qed.

(** C1, amended. For every configuration that uses the built-in reducer (no
    [reducer] prop), with [on = true] and an [onChange] function: [toggle()]
    leaves the hook store (reducer state and queue) and every existing object
    unchanged, and invokes [onChange] exactly once, with a reference to an
    object that is exactly [{on: false}] and with the toggle action. *)
Theorem controlled_toggle (p : Props) :
  default toggleReducer (reducer p) = toggleReducer → controlled_toggle_suggests_off p.
Proof.
  intros Hred NODE_ENV w0 r w f Hon Hf H.
  apply useToggle_render in H as (Hc & Hoc & Hr & _ & _ & Hv & _).
  rewrite Hon in Hc, Hv. rewrite Hf in Hoc. rewrite Hred in Hr. cbn in Hc, Hv, Hr.
  unfold toggle_suggests_off, toggle, dispatchWithOnChange.
  rewrite Hc, Hoc, Hr, Hv. cbn [callee_of].
  unfold bind at 1. cbn [ret].
  unfold bind at 1. unfold lift_heap at 1, spread_with, alloc.
  unfold bind at 1.
  erewrite lift_heap_ok by (by apply toggleReducer_toggle).
  cbn -[truthy read_on].
  assert (read_on (heap w ++ [<["on":=VBool true]> (own_props (heap w) (r_state r))])
            (VObj (List.length (heap w))) = VBool true) as ->.
  { unfold read_on, own_props. rewrite lookup_app_r by done.
    rewrite Nat.sub_diag. cbn. by rewrite lookup_insert_eq. }
  eexists _, _. split; [reflexivity|]. cbn.
  split; [done|]. split.
  - intros l0 o Hl. rewrite <- app_assoc. by apply lookup_app_l_Some.
  - split; [reflexivity|].
    rewrite lookup_app_r by done. by rewrite Nat.sub_diag.
Qed.

Lemma controlled_toggle_witness :
  toggle_suggests_off
    (mkRender (VObj 0) (VObj 0) (VBool true) true (VFun "sink") toggleReducer)
    "sink"
    (final (useToggle "test"
              (mkProps VUndefined None (VFun "sink") (VBool true) VUndefined) world0)).
Proof.
  apply (controlled_toggle (mkProps VUndefined None (VFun "sink") (VBool true) VUndefined)
           eq_refl "test" world0 _ _ "sink" eq_refl eq_refl).
  reflexivity.
Defined.

(** Reading [on] back from a fresh copy [{...state, on}]. *)
Lemma read_on_spread (h : Heap) (m : Obj) (v : JsVal) :
  read_on (h ++ [<["on" := v]> m]) (VObj (List.length h)) = v.
Proof.
  unfold read_on, own_props. rewrite lookup_app_r by done.
  rewrite Nat.sub_diag. cbn. by rewrite lookup_insert_eq.
Qed.

(** C2. For every configuration with an [onChange] function and every action:
    the state passed to [onChange] is the result of the configured reducer on
    a fresh copy of the reducer state whose [on] is the effective value of the
    render, that is the controlled prop when it is present and [state.on]
    otherwise; under external ownership [on] of the reducer state never
    reaches the reducer. [onChange] receives that result and the action, once;
    if the reducer throws, the exception leaves the dispatch and [onChange] is
    not invoked. *)
Theorem suggestion_from_effective_state
    (NODE_ENV : string) (p : Props) (w0 w : World) (r : Render) (f : string) :
  useToggle NODE_ENV p w0 = Ok r w →
  onChange p = VFun f →
  reducerSlot (fiber w) = Some (r_state r, [])
  ∧ r_on r = (if not_nullish (controlledOn p) then controlledOn p
              else read_on (heap w) (r_state r))
  ∧ ∀ (a : Action) (w1 : World),
      effective_state_object r (heap w1) !! "on" = Some (r_on r)
      ∧ match default toggleReducer (reducer p) (VObj (List.length (heap w1))) a
                (heap w1 ++ [effective_state_object r (heap w1)])%list with
        | Ok suggested h2 =>
            ∃ w2, dispatchWithOnChange r a w1 = Ok tt w2
                  ∧ heap w2 = h2
                  ∧ log w2 = (log w1 ++ [EvCall f [ArgVal suggested; ArgAction a]])%list
        | Throw e h2 =>
            ∃ w2, dispatchWithOnChange r a w1 = Throw e w2
                  ∧ heap w2 = h2
                  ∧ log w2 = log w1
        end.
Proof.
  intros H Hf.
  apply useToggle_render in H as (Hc & Hoc & Hr & Hs & _ & Hon & _).
  split; [done|]. split; [done|].
  intros a w1. split; [apply lookup_insert_eq|].
  unfold dispatchWithOnChange. rewrite Hoc, Hf, Hr. cbn [callee_of].
  unfold bind at 1.
  destruct ((if r_onIsControlled r then ret tt else dispatch a) w1) as [[] w1'|e w1'] eqn:E1.
  2:{ destruct (r_onIsControlled r); discriminate. }
  assert (heap w1' = heap w1 ∧ log w1' = log w1) as [Hh Hl].
  { destruct (r_onIsControlled r); inversion E1; subst; done. }
  unfold bind, lift_heap, spread_with, alloc, effective_state_object.
  cbn. rewrite E1. cbn. rewrite Hh, Hl.
  destruct (default toggleReducer (reducer p) _ a _); cbn; eauto.
Qed.

Lemma suggestion_from_effective_state_witness :
  let p := mkProps VUndefined None (VFun "sink") (VBool false) VUndefined in
  ∃ r w, useToggle "test" p world0 = Ok r w
         ∧ r_on r = VBool false
         ∧ ∃ w2, toggle r w = Ok tt w2
                 ∧ log w2 = (log w ++ [EvCall "sink" [ArgVal (VObj 2); ArgAction Toggle]])%list
                 ∧ heap w2 !! 2 = Some {[ "on" := VBool true ]}.
Proof.
  intros p.
  destruct (useToggle_mount_state "test" p world0 eq_refl) as (r & w & E & _ & Hheap).
  exists r, w. split; [exact E|].
  destruct (suggestion_from_effective_state "test" p world0 w r "sink" E eq_refl)
    as (_ & Hon & Hd).
  split; [exact Hon|].
  destruct (Hd Toggle w) as [_ Hd'].
  cbn [default reducer p] in Hd'. unfold Toggle at 1 in Hd'.
  rewrite toggleReducer_toggle in Hd' by reflexivity.
  destruct Hd' as (w2 & E2 & Hh & Hl).
  exists w2. split; [exact E2|].
  change (heap w = [ {[ "on" := VBool false ]} ]) in Hheap.
  unfold effective_state_object in Hh, Hl. rewrite read_on_spread, Hon in Hh.
  rewrite Hheap in Hl, Hh. split; [exact Hl|].
  rewrite Hh. reflexivity.
Defined.

(** ** Prop getters *)

Lemma callAll_function_then (f : string) (c : M unit) (args : list Arg) (w : World) :
  callAll [callee_of (VFun f); Callable (λ _, c)] args w
  = (emit (EvCall f args) ;;; c) w.
Proof.
  unfold callAll, forEach, optional_call, callee_of, bind, emit, ret.
  by destruct (c _) as [[] ?|? ?].
Qed.

Lemma callAll_nullish_then (v : JsVal) (c : M unit) (args : list Arg) (w : World) :
  not_nullish v = false →
  callAll [callee_of v; Callable (λ _, c)] args w = c w.
Proof.
  intros Hv. destruct v; try discriminate;
    unfold callAll, forEach, optional_call, callee_of, bind, ret;
    by destruct (c w) as [[] ?|? ?].
Qed.

(** C9. For every overrides object, the bundle returned by [getTogglerProps]
    has, under [onClick], a handler that calls the caller's [onClick] with the
    arguments of the click and then [toggle()] (and only [toggle()] when the
    caller gave no [onClick]); every other property of the overrides is in the
    bundle with the caller's value, also under the key [aria-pressed]; and
    [aria-pressed] is the effective value [on] of the render unless the caller
    overrides it. A call without argument is a call with the empty object. *)
Theorem getTogglerProps_bundle (r : Render) (overrides : Obj) (args : list Arg) :
  (∃ handler,
      getTogglerProps r (Some overrides) !! "onClick" = Some (PHandler handler)
      ∧ (∀ f w, overrides !! "onClick" = Some (VFun f) →
           handler args w = (emit (EvCall f args) ;;; toggle r) w)
      ∧ (∀ w, not_nullish (default VUndefined (overrides !! "onClick")) = false →
           handler args w = toggle r w))
  ∧ (∀ k v, k ≠ "onClick" → overrides !! k = Some v →
       getTogglerProps r (Some overrides) !! k = Some (PVal v))
  ∧ (overrides !! "aria-pressed" = None →
     getTogglerProps r (Some overrides) !! "aria-pressed" = Some (PVal (r_on r)))
  ∧ getTogglerProps r None = getTogglerProps r (Some ∅).
Proof.
  split; [|split; [|split]].
  - eexists. split; [|split].
    + unfold getTogglerProps, spread_props. cbn.
      rewrite lookup_union_r.
      * apply lookup_insert_eq.
      * by rewrite lookup_fmap, lookup_delete_eq.
    + intros f w Hf. rewrite Hf. apply (callAll_function_then f (toggle r)).
    + intros w Hn. by apply callAll_nullish_then.
  - intros k v Hk Hv. unfold getTogglerProps, spread_props. cbn.
    apply lookup_union_Some_l. by rewrite lookup_fmap, lookup_delete_ne, Hv.
  - intros Hn. unfold getTogglerProps, spread_props. cbn.
    rewrite lookup_union_r.
    + rewrite lookup_insert_ne by done. apply lookup_insert_eq.
    + by rewrite lookup_fmap, lookup_delete_ne, Hn.
  - reflexivity.
Qed.

Lemma getTogglerProps_bundle_witness :
  let r := mkRender (VObj 0) (VObj 0) (VBool false) false VUndefined toggleReducer in
  let overrides : Obj := {[ "onClick" := VFun "onButtonClick"; "aria-label" := VNull ]} in
  let w := mkWorld [ {[ "on" := VBool false ]} ]
             (set_reducerSlot (Some (VObj 0, [])) unmounted) [] in
  (∃ handler,
      getTogglerProps r (Some overrides) !! "onClick" = Some (PHandler handler)
      ∧ handler [ArgVal VNull] w = (emit (EvCall "onButtonClick" [ArgVal VNull]) ;;; toggle r) w)
  ∧ getTogglerProps r (Some overrides) !! "aria-label" = Some (PVal VNull)
  ∧ getTogglerProps r (Some overrides) !! "aria-pressed" = Some (PVal (VBool false))
  ∧ ∃ handler,
      getTogglerProps r (Some ∅) !! "onClick" = Some (PHandler handler)
      ∧ handler [ArgVal VNull] w = toggle r w.
Proof.
  intros r overrides w.
  destruct (getTogglerProps_bundle r overrides [ArgVal VNull])
    as ((handler & Hh & Hf & _) & Hk & Ha & _).
  destruct (getTogglerProps_bundle r ∅ [ArgVal VNull])
    as ((handler' & Hh' & _ & Hn) & _).
  split.
  - exists handler. split; [exact Hh|]. apply Hf. reflexivity.
  - split; [apply Hk; [discriminate | reflexivity]|].
    split; [apply Ha; reflexivity|].
    exists handler'. split; [exact Hh'|]. apply Hn. reflexivity.
Defined.

(** ** The consistency warnings *)

Lemma emitted_app {A} (c : M A) (w : World) (new : list Event) :
  log (final (c w)) = (log w ++ new)%list → emitted c w = new.
Proof. unfold emitted. intros ->. apply drop_app_length. Qed.

(** C3, as stated, fails when the mode flips back to what it was at the first
    render: uncontrolled, then controlled, then uncontrolled again prints the
    first warning only, where a check against the previous mode prints both. *)
Lemma flip_back_is_silent :
  emitted (switch_warnings [VUndefined; VBool true; VUndefined]) world0
  = [EvWarn msg_uncontrolledToControlled]
  ∧ spec_flip_trace (not_nullish <$> [VUndefined; VBool true; VUndefined])
    = [EvWarn msg_uncontrolledToControlled; EvWarn msg_controlledToUncontrolled]
  ∧ emitted (switch_warnings [VUndefined; VBool true; VUndefined]) world0
    ≠ spec_flip_trace (not_nullish <$> [VUndefined; VBool true; VUndefined]).
Proof.
  split; [|split].
  - vm_compute. reflexivity.
  - vm_compute. reflexivity.
  - vm_compute. discriminate.
Qed.

Lemma switch_warning_mount (v : JsVal) (w : World) :
  isControlledRefSlot (fiber w) = None → switchDepsSlot (fiber w) = None →
  ∃ w', useControlledSwitchWarning v w = Ok tt w'
        ∧ isControlledRefSlot (fiber w') = Some (not_nullish v)
        ∧ switchDepsSlot (fiber w') = Some (not_nullish v)
        ∧ log w' = log w.
Proof.
  destruct w as [h [s1 s2 s3 s4 s5] lg]. cbn. intros -> ->.
  unfold useControlledSwitchWarning, useRef, useEffect, current, warning, bind,
    get_fiber, modify_fiber, ret, emit. cbn.
  destruct (not_nullish v); cbn; by eauto 10.
Qed.

Lemma switch_warning_update (v : JsVal) (w : World) (P D : bool) :
  isControlledRefSlot (fiber w) = Some P → switchDepsSlot (fiber w) = Some D →
  ∃ w', useControlledSwitchWarning v w = Ok tt w'
        ∧ isControlledRefSlot (fiber w') = Some P
        ∧ switchDepsSlot (fiber w') = Some (not_nullish v)
        ∧ log w' = (log w ++ (if decide (not_nullish v = D) then []
                              else flip_diagnostics P (not_nullish v)))%list.
Proof.
  destruct w as [h [s1 s2 s3 s4 s5] lg]. cbn. intros -> ->.
  unfold useControlledSwitchWarning, useRef, useEffect, current, warning, bind,
    get_fiber, modify_fiber, ret, emit, flip_diagnostics. cbn.
  destruct P, D, (not_nullish v); cbn; rewrite ?app_nil_r; by eauto 10.
Qed.

(** Renders that stay in the mode of the previous render print nothing. *)
Lemma switch_warnings_unchanged (values : list JsVal) (w : World) (P C : bool) :
  isControlledRefSlot (fiber w) = Some P → switchDepsSlot (fiber w) = Some C →
  Forall (λ v, not_nullish v = C) values →
  ∃ w', switch_warnings values w = Ok tt w' ∧ log w' = log w.
Proof.
  intros HP HD Hall. revert w HP HD.
  induction Hall as [|v values Hv _ IH]; intros w HP HD.
  - by eexists.
  - destruct (switch_warning_update v w P C HP HD) as (w1 & E1 & HP1 & HD1 & Hl1).
    rewrite Hv in HD1, Hl1. rewrite decide_True, app_nil_r in Hl1 by done.
    destruct (IH w1 HP1 HD1) as (w' & E' & Hl').
    exists w'. split; [|congruence].
    unfold switch_warnings in *. cbn. unfold bind. by rewrite E1.
Qed.

Lemma flip_diagnostics_one (P C : bool) :
  C ≠ P →
  flip_diagnostics P C
  = [EvWarn (if C then msg_uncontrolledToControlled else msg_controlledToUncontrolled)].
Proof. by destruct P, C. Qed.

(** C3, amended. The check keeps the ownership mode [P] seen at the first
    render and never updates it. The first render prints nothing. A later
    render with mode [C] evaluates the check only when [C] differs from the
    mode [D] of the previous render, and then prints
    "uncontrolled to controlled" exactly when [P] is uncontrolled and [C]
    controlled, and "controlled to uncontrolled" exactly when [P] is
    controlled and [C] uncontrolled. So one change away from the first mode
    prints exactly one warning, and the renders that follow in the new mode
    print none. *)
Theorem switch_warning_compares_with_first_mode (v : JsVal) (w : World) :
  (isControlledRefSlot (fiber w) = None → switchDepsSlot (fiber w) = None →
     ∃ w', useControlledSwitchWarning v w = Ok tt w'
           ∧ isControlledRefSlot (fiber w') = Some (not_nullish v)
           ∧ switchDepsSlot (fiber w') = Some (not_nullish v)
           ∧ log w' = log w)
  ∧ (∀ P D, isControlledRefSlot (fiber w) = Some P → switchDepsSlot (fiber w) = Some D →
       ∃ w', useControlledSwitchWarning v w = Ok tt w'
             ∧ isControlledRefSlot (fiber w') = Some P
             ∧ switchDepsSlot (fiber w') = Some (not_nullish v)
             ∧ log w' = (log w ++ (if decide (not_nullish v = D) then []
                                   else flip_diagnostics P (not_nullish v)))%list)
  ∧ (∀ v0 rest,
       isControlledRefSlot (fiber w) = None → switchDepsSlot (fiber w) = None →
       not_nullish v ≠ not_nullish v0 →
       Forall (λ x, not_nullish x = not_nullish v) rest →
       emitted (switch_warnings (v0 :: v :: rest)) w
       = [EvWarn (if not_nullish v then msg_uncontrolledToControlled
                  else msg_controlledToUncontrolled)]).
Proof.
  split; [apply switch_warning_mount|].
  split; [intros P D; apply switch_warning_update|].
  intros v0 rest HP HD Hne Hrest.
  destruct (switch_warning_mount v0 w HP HD) as (w1 & E1 & HP1 & HD1 & Hl1).
  destruct (switch_warning_update v w1 _ _ HP1 HD1) as (w2 & E2 & HP2 & HD2 & Hl2).
  rewrite decide_False in Hl2 by done.
  destruct (switch_warnings_unchanged rest w2 _ _ HP2 HD2 Hrest) as (w3 & E3 & Hl3).
  apply emitted_app.
  unfold switch_warnings in *. cbn. unfold bind. rewrite E1, E2.
  rewrite E3. cbn. rewrite Hl3, Hl2, Hl1.
  by rewrite flip_diagnostics_one.
Qed.

Lemma switch_warning_compares_with_first_mode_witness :
  (∃ w', useControlledSwitchWarning (VBool true) world0 = Ok tt w' ∧ log w' = [])
  ∧ (let w := final (switch_warnings [VUndefined; VBool true] world0) in
     ∃ w', useControlledSwitchWarning VUndefined w = Ok tt w'
           ∧ isControlledRefSlot (fiber w') = Some false
           ∧ log w' = log w)
  ∧ emitted (switch_warnings [VUndefined; VBool true; VBool false; VBool true]) world0
    = [EvWarn msg_uncontrolledToControlled].
Proof.
  split; [|split].
  - destruct (switch_warning_compares_with_first_mode (VBool true) world0) as (H & _).
    destruct H as (w' & E & _ & _ & Hl); [reflexivity | reflexivity |].
    exists w'. split; [exact E | exact Hl].
  - intros w.
    destruct (switch_warning_compares_with_first_mode VUndefined w) as (_ & H & _).
    destruct (H false true) as (w' & E & HP & _ & Hl); [reflexivity | reflexivity |].
    exists w'. split; [exact E|]. split; [exact HP|].
    rewrite Hl. cbn. apply app_nil_r.
  - destruct (switch_warning_compares_with_first_mode (VBool true) world0) as (_ & _ & H).
    apply (H VUndefined [VBool false; VBool true]);
      [reflexivity | reflexivity | discriminate | repeat constructor].
Defined.

Lemma read_only_without_handler_dec (oc v ro : JsVal) :
  negb (truthy oc) && not_nullish v && negb (truthy ro) = true
  ↔ read_only_without_handler oc v ro.
Proof.
  unfold read_only_without_handler.
  destruct (truthy oc), (not_nullish v), (truthy ro); cbn;
    (split; [intros H | intros (H1 & H2 & H3)]; done).
Qed.

(** What one render of the read-only check adds to the trace. *)
Lemma useOnChangeReadOnlyWarning_log (oc v ro : JsVal) (w : World) :
  log (final (useOnChangeReadOnlyWarning oc v ro w))
  = (log w ++
     if decide (readOnlyDepsSlot (fiber w) = Some (truthy oc, not_nullish v, ro)) then []
     else if negb (truthy oc) && not_nullish v && negb (truthy ro)
          then [EvWarn msg_readOnly] else [])%list.
Proof.
  destruct w as [h [s1 s2 s3 s4 s5] lg].
  unfold useOnChangeReadOnlyWarning, useEffect, warning, bind,
    get_fiber, modify_fiber, ret, emit. cbn.
  destruct (decide (s5 = Some (truthy oc, not_nullish v, ro))); cbn;
    [by rewrite app_nil_r|].
  destruct (negb (truthy oc) && not_nullish v && negb (truthy ro)); cbn;
    by rewrite ?app_nil_r.
Qed.

(** The trace of the first render of [useToggle] outside production. *)
Lemma useToggle_mount_log (NODE_ENV : string) (p : Props) (w0 : World) :
  NODE_ENV ≠ "production" → fiber w0 = unmounted →
  log (final (useToggle NODE_ENV p w0))
  = (log w0 ++
     if negb (truthy (onChange p)) && not_nullish (controlledOn p)
        && negb (truthy (default_param (VBool false) (readOnly p)))
     then [EvWarn msg_readOnly] else [])%list.
Proof.
  intros Hne. destruct w0 as [h0 f0 lg0]. cbn. intros ->.
  unfold useToggle.
  unfold bind at 1. cbn.
  unfold bind at 1. cbn.
  unfold bind at 1. cbn.
  unfold bind at 1.
  set (w3 := mkWorld _ _ _).
  assert (∃ on, (if not_nullish (controlledOn p) then ret (controlledOn p)
                 else lift_heap (get_prop (VObj (List.length h0)) "on")) w3 = Ok on w3)
    as [on ->].
  { destruct (not_nullish (controlledOn p)); eexists; reflexivity. }
  rewrite decide_False by done.
  destruct (switch_warning_mount (controlledOn p) w3) as (w4 & E4 & _ & _ & Hl4);
    [done | done |].
  destruct (useControlledSwitchWarning_frame (controlledOn p) w3)
    as (w4' & E4' & _ & _ & _ & Hro).
  rewrite E4 in E4'. inversion E4'; subst w4'; clear E4'.
  rewrite E4.
  pose proof (useOnChangeReadOnlyWarning_log (onChange p) (controlledOn p)
                (default_param (VBool false) (readOnly p)) w4) as Hl5.
  rewrite Hro in Hl5. rewrite decide_False in Hl5 by done.
  destruct (useOnChangeReadOnlyWarning _ _ _ w4) as [[] w5|e w5]; cbn in *;
    by rewrite Hl5, Hl4.
Qed.

(** C6. Whenever the read-only check is evaluated, that is in the first
    render and in every render in which one of its three inputs differs from
    the previous render, it prints the read-only warning, and nothing else, if
    and only if the component is controlled, has no [onChange] and [readOnly]
    is not set. In no render does it print anything when [readOnly] is set or
    an [onChange] is present. In the first render of [useToggle] outside
    production this is the only warning there can be. *)
Theorem readOnly_warning_iff (oc v ro : JsVal) (w : World) :
  (readOnlyDepsSlot (fiber w) ≠ Some (truthy oc, not_nullish v, ro) →
     (emitted (useOnChangeReadOnlyWarning oc v ro) w = [EvWarn msg_readOnly]
      ↔ read_only_without_handler oc v ro)
     ∧ (emitted (useOnChangeReadOnlyWarning oc v ro) w = []
        ↔ ¬ read_only_without_handler oc v ro))
  ∧ (truthy ro = true ∨ truthy oc = true →
     emitted (useOnChangeReadOnlyWarning oc v ro) w = [])
  ∧ (∀ NODE_ENV p,
       NODE_ENV ≠ "production" → fiber w = unmounted →
       (emitted (useToggle NODE_ENV p) w = [EvWarn msg_readOnly]
        ↔ read_only_without_handler (onChange p) (controlledOn p)
            (default_param (VBool false) (readOnly p)))
       ∧ (emitted (useToggle NODE_ENV p) w = []
          ↔ ¬ read_only_without_handler (onChange p) (controlledOn p)
                (default_param (VBool false) (readOnly p)))).
Proof.
  split; [|split].
  - intros Hdeps.
    rewrite (emitted_app _ _ _ (useOnChangeReadOnlyWarning_log oc v ro w)).
    rewrite decide_False by done.
    rewrite <- read_only_without_handler_dec.
    destruct (negb (truthy oc) && not_nullish v && negb (truthy ro));
      (split; split; intros H; done).
  - intros Hor.
    rewrite (emitted_app _ _ _ (useOnChangeReadOnlyWarning_log oc v ro w)).
    destruct (decide _); [done|].
    destruct Hor as [-> | ->]; cbn; [|done].
    by rewrite andb_false_r.
  - intros NODE_ENV p Hne Hmount.
    rewrite (emitted_app _ _ _ (useToggle_mount_log NODE_ENV p w Hne Hmount)).
    rewrite <- read_only_without_handler_dec.
    destruct (negb (truthy (onChange p)) && not_nullish (controlledOn p)
              && negb (truthy (default_param (VBool false) (readOnly p))));
      (split; split; intros H; done).
Qed.

Lemma readOnly_warning_iff_witness :
  let readOnlyProps := mkProps VUndefined None VUndefined (VBool true) (VBool true) in
  emitted (useToggle "test" (with_on (VBool true) noProps)) world0 = [EvWarn msg_readOnly]
  ∧ emitted (useToggle "test" readOnlyProps) world0 = []
  ∧ emitted (useOnChangeReadOnlyWarning (VFun "sink") (VBool true) (VBool false)) world0 = []
  ∧ emitted (useOnChangeReadOnlyWarning VUndefined (VBool true) (VBool false)) world0
    = [EvWarn msg_readOnly].
Proof.
  intros readOnlyProps.
  destruct (readOnly_warning_iff VUndefined VUndefined VUndefined world0) as (_ & _ & H3).
  destruct (H3 "test" (with_on (VBool true) noProps)) as [[_ Hyes] _];
    [discriminate | reflexivity |].
  destruct (H3 "test" readOnlyProps) as [_ [_ Hno]]; [discriminate | reflexivity |].
  destruct (readOnly_warning_iff (VFun "sink") (VBool true) (VBool false) world0)
    as (_ & H2 & _).
  destruct (readOnly_warning_iff VUndefined (VBool true) (VBool false) world0)
    as (H1 & _ & _).
  destruct H1 as [[_ H1] _]; [discriminate|].
  split; [apply Hyes; repeat split|].
  split; [apply Hno; intros (_ & _ & H); discriminate|].
  split; [apply H2; by right|].
  apply H1; repeat split.
Defined.
